(** * js-examples: the tagged-template function [echoTag] and the [Hello]
      component

    A shallow embedding of these pieces of the repository:

    - [echoTag], the tagged-template function of the "strings" test, which
      glues the literal pieces of a template and the values of its
      substitutions back together, and the tagged template that calls it;
    - [echoTag] once more with the state of the program and what a call
      can throw, for substitutions that are Symbols or objects;
    - the copy loops of the tests "string iterating", "arrays" and "sets";
    - [Hello.render], the [render] method of the React component in
      [src/components/hello.tsx].

    A JavaScript string is a finite sequence of code units; it is
    modelled by [string], with [++] for concatenation and [String.length]
    for [.length].  Arrays are modelled by [list], the variables of
    [echoTag] by a record that the statements of its body pass along. *)

From Stdlib Require Import String Ascii List ZArith Arith Bool Lia.
From Stdlib Require Import DecimalString.
From Equations Require Import Equations.
Import ListNotations.

Local Open Scope list_scope.
Local Open Scope string_scope.

(** ** JavaScript values and their coercion to text *)

Module JS.

(** A Number.  [echoTag] only ever turns a Number into text, so the model
    keeps the Numbers whose text is plain: [Int z] for an integer-valued
    Number such as the code's [count = 10] (every integer up to
    [Number.MAX_SAFE_INTEGER] in magnitude is one, and its text is its
    decimal numeral), and the three special values. *)
Inductive number : Type :=
| Int (z : Z)
| NaN
| Infinity (negative : bool).

(** The values a substitution is coerced from: the primitives that have
    a text.  The source file opens with the list of the built-in types;
    Object is left aside there ("a bigger topic") and here, and so is
    Symbol, the one primitive that string concatenation refuses. *)
Inductive value : Type :=
| Undefined
| Null
| Boolean (b : bool)
| Number (n : number)
| String (s : string).

(** [Number::toString] in radix 10. *)
Definition NumberToString (n : number) : string :=
  match n with
  | Int z => NilZero.string_of_int (Z.to_int z)
  | NaN => "NaN"
  | Infinity false => "Infinity"
  | Infinity true => "-Infinity"
  end.

(** The abstract operation [ToString] on the primitives above. *)
Definition ToString (v : value) : string :=
  match v with
  | Undefined => "undefined"
  | Null => "null"
  | Boolean true => "true"
  | Boolean false => "false"
  | Number n => NumberToString n
  | String s => s
  end.

(** [a[k]] on an array [a] and an integer index [k]: the element when
    [0 <= k < a.length], and [undefined] otherwise (a read out of range
    is not an error in JavaScript). *)
Definition Get {A : Type} (a : list A) (k : Z) : option A :=
  if (k <? 0)%Z then None else nth_error a (Z.to_nat k).

(** An element read from an array of strings, as a value. *)
Definition of_element (e : option string) : value :=
  match e with
  | Some s => String s
  | None => Undefined
  end.

(** An element read from an array of values. *)
Definition of_slot (e : option value) : value :=
  match e with
  | Some v => v
  | None => Undefined
  end.

(** [s += v] with [s] a string: [v] is coerced by [ToString] and
    appended. *)
Definition add_assign (s : string) (v : value) : string :=
  s ++ ToString v.

End JS.

(** ** [echoTag] *)

Module EchoTag.

Import JS.

(** The variables in scope in the body of [echoTag]: the two parameters
    and the locals [result] and [i]. *)
Record frame : Type := Frame {
  literals : list string;
  substitutions : list value;
  result : string;
  i : nat
}.

(** [i < substitutions.length] *)
Definition loop_test (f : frame) : bool :=
  (i f <? length (substitutions f))%nat.

(** [result += literals[i]; result += substitutions[i]; i++] *)
Definition loop_body (f : frame) : frame :=
  let r1 := add_assign (result f)
              (of_element (Get (literals f) (Z.of_nat (i f)))) in
  let r2 := add_assign r1
              (of_slot (Get (substitutions f) (Z.of_nat (i f)))) in
  Frame (literals f) (substitutions f) r2 (S (i f)).

(** A value together with the fact that it is the value of [a]: this
    keeps the outcome of the loop test at hand in the branch taken. *)
Definition inspect {A : Type} (a : A) : {b : A | a = b} :=
  exist _ a eq_refl.

(** [for (...; i < substitutions.length; i++) { ... }], from the frame
    where [i] has been initialised. *)
Equations? for_loop (f : frame) : frame
  by wf (length (substitutions f) - i f) lt :=
  for_loop f with inspect (loop_test f) => {
    | exist _ true _ := for_loop (loop_body f);
    | exist _ false _ := f }.
Proof.
  unfold loop_test in e. apply Nat.ltb_lt in e. simpl. lia.
Qed.

(** The whole body, up to the frame at [return result]. *)
Definition run (lits : list string) (substs : list value) : frame :=
  let f0 := Frame lits substs "" 0 in
  let f1 := for_loop f0 in
  let last := Get (literals f1) (Z.of_nat (length (literals f1)) - 1) in
  Frame (literals f1) (substitutions f1)
        (add_assign (result f1) (of_element last)) (i f1).

(** [echoTag(literals, ...substitutions)] *)
Definition echoTag (lits : list string) (substs : list value) : string :=
  result (run lits substs).

(** *** The renderer as the specification words it

    Written after the words of the specification (section 4.1,
    "Algorithm"), not after the code: an accumulator that starts empty,
    receives [fragments[k]] and the text of [substitutions[k]] for [k]
    from [0] to [N-2], then the final fragment [fragments[N-1]]. *)
Definition render_spec (fragments : list string)
    (substs : list value) : string :=
  let N := length fragments in
  let step (acc : string) (k : nat) :=
    ((acc ++ nth k fragments "") ++ ToString (nth k substs Undefined))%string in
  (fold_left step (seq 0 (N - 1)) "" ++ nth (N - 1) fragments "")%string.

(** The pieces of a template in source order: a fragment, the text of
    the substitution that follows it, the next fragment, and so on. *)
Fixpoint interleave (fragments texts : list string) : list string :=
  match fragments, texts with
  | f :: fs, t :: ts => f :: t :: interleave fs ts
  | _, _ => fragments
  end.

(** What one iteration of the loop appends at index [k]: the text read
    from [literals[k]] (["undefined"] out of range), then the text of
    [substitutions[k]]. *)
Definition piece (lits : list string) (substs : list value)
    (k : nat) : string :=
  (nth k lits "undefined" ++ ToString (nth k substs Undefined))%string.

(** What the whole loop appends, round by round. *)
Definition pieces (lits : list string) (substs : list value) : list string :=
  map (piece lits substs) (seq 0 (length substs)).

(** Total length of a list of strings. *)
Definition total_length (l : list string) : nat :=
  list_sum (map String.length l).

End EchoTag.

(** ** The [Hello] component *)

Module Hello.

(** [interface HelloProps] *)
Record HelloProps : Type := {
  compiler : string;
  framework : string
}.

(** An instance of [class Hello extends React.Component<HelloProps, {}>]:
    the base class stores the properties it was created with in
    [this.props]. *)
Record instance : Type := { props : HelloProps }.

(** The values an identifier or a property may hold, as far as [render]
    can tell them apart. *)
#[warnings="-register-all"]
Inductive jsval : Type :=
| Undef
| Str (s : string)
| Obj (fields : list (string * jsval)).

(** What goes wrong at run time. *)
Inductive exn : Type :=
| ReferenceError (name : string)
| TypeError.

(** The outcome of evaluating an expression. *)
Inductive completion (A : Type) : Type :=
| Normal (a : A)
| Throw (e : exn).
Arguments Normal {A} a.
Arguments Throw {A} e.

Definition bind {A B : Type} (c : completion A)
    (k : A -> completion B) : completion B :=
  match c with
  | Normal a => k a
  | Throw e => Throw e
  end.

Notation "x <- c ;; k" := (bind c (fun x => k))
  (at level 61, c at next level, right associativity).

(** The bindings visible from a piece of code, innermost first. *)
Definition scope : Type := list (string * jsval).

Fixpoint lookup (x : string) (sc : scope) : option jsval :=
  match sc with
  | [] => None
  | (y, v) :: rest => if String.eqb x y then Some v else lookup x rest
  end.

(** Evaluating an identifier: its binding, or a [ReferenceError] when no
    scope binds it. *)
Definition resolve (x : string) (sc : scope) : completion jsval :=
  match lookup x sc with
  | Some v => Normal v
  | None => Throw (ReferenceError x)
  end.

(** [o.p]: a [TypeError] on [undefined], the property or [undefined]
    otherwise. *)
Definition member (o : jsval) (p : string) : completion jsval :=
  match o with
  | Undef => Throw TypeError
  | Str _ => Normal Undef
  | Obj fields =>
      match lookup p fields with
      | Some v => Normal v
      | None => Normal Undef
      end
  end.

(** What a JSX element evaluates to: its tag and its children. *)
Record element : Type := {
  tag : string;
  children : list jsval
}.

Section Render.

(** The module binds two names, [React] (the import) and [Hello] (the
    class); what they are bound to plays no part.  Below them lies the
    global scope of whoever loads the module. *)
Variables React_binding Hello_binding : jsval.
Variable globals : scope.

(** The scope of the body of [render]: the method has no parameter and
    declares no local. *)
Definition render_scope : scope :=
  ("React", React_binding) :: ("Hello", Hello_binding) :: globals.

(** [render() { return <h1>Hello from {props.compiler} and
    {props.framework}!</h1>; }] : the children are evaluated from left
    to right, then the element is built.  [this] is at hand, the body
    does not mention it. *)
Definition render (this : instance) : completion element :=
  c <- (p <- resolve "props" render_scope ;; member p "compiler") ;;
  f <- (p <- resolve "props" render_scope ;; member p "framework") ;;
  Normal {| tag := "h1";
            children := [Str "Hello from "; c; Str " and "; f; Str "!"] |}.

End Render.

(** The heading the component is meant to show: static text around the
    two properties of the component. *)
Definition heading (p : HelloProps) : element :=
  {| tag := "h1";
     children := [Str "Hello from "; Str (compiler p); Str " and ";
                  Str (framework p); Str "!"] |}.

End Hello.

(** ** The call site of [echoTag]: a tagged template *)

Module Template.

Import JS EchoTag.

(** A template literal [`head${v1}s1${v2}s2...`] once its substitutions
    are evaluated: the text before the first substitution, then each
    substitution with the text that follows it. *)
Record template : Type := {
  head : string;
  spans : list (value * string)
}.

(** The array of literal strings a tag function receives as its first
    argument. *)
Definition strings (t : template) : list string :=
  head t :: map snd (spans t).

(** The values a tag function receives as its remaining arguments. *)
Definition values (t : template) : list value :=
  map fst (spans t).

(** [tag`...`]: the tag function is called with the strings, then the
    values. *)
Definition tagged (tag : list string -> list value -> string)
    (t : template) : string :=
  tag (strings t) (values t).

(** [`...`] without a tag: the pieces are concatenated in order, each
    substitution by its text. *)
Definition untagged (t : template) : string :=
  (head t
   ++ String.concat "" (map (fun p => ToString (fst p) ++ snd p) (spans t)))%string.

End Template.

(** ** The test "string iterating" *)

Module StringIterating.

Import JS.

(** [s[k]]: the string made of the code unit at index [k], and
    [undefined] out of range. *)
Definition char_at (s : string) (k : Z) : value :=
  if (k <? 0)%Z then Undefined
  else match String.get (Z.to_nat k) s with
       | Some c => String (String.String c "")
       | None => Undefined
       end.

(** The variables of the test: [name], [found] and the counter [i]. *)
Record iter_frame : Type := IterFrame {
  name : string;
  found : string;
  pos : nat
}.

(** [i < name.length] *)
Definition iter_test (f : iter_frame) : bool :=
  (pos f <? String.length (name f))%nat.

(** [found += name[i]; i++] *)
Definition iter_body (f : iter_frame) : iter_frame :=
  IterFrame (name f)
    (add_assign (found f) (char_at (name f) (Z.of_nat (pos f))))
    (S (pos f)).

(** [for (let i = 0; i < name.length; i++) { found += name[i]; }] *)
Equations? iter_loop (f : iter_frame) : iter_frame
  by wf (String.length (name f) - pos f) lt :=
  iter_loop f with EchoTag.inspect (iter_test f) => {
    | exist _ true _ := iter_loop (iter_body f);
    | exist _ false _ := f }.
Proof.
  unfold iter_test in e. apply Nat.ltb_lt in e. simpl. lia.
Qed.

(** The body of the test up to its assertion, for any [name]:
    [var found = ""; for (...) {...}], giving [found]. *)
Definition iterate (n : string) : string :=
  found (iter_loop (IterFrame n "" 0)).

End StringIterating.

(** ** The test "arrays" *)

Module Arrays.

Import JS.

Section Copy.

(** The elements of the array, of any kind (the test mixes a string, a
    number and an array), with the value a read out of range gives. *)
Variable A : Type.
Variable undefined : A.

(** [a[k]] as an element. *)
Definition element_at (a : list A) (k : Z) : A :=
  match Get a k with
  | Some x => x
  | None => undefined
  end.

(** [a.push(x)] *)
Definition push (a : list A) (x : A) : list A := (a ++ [x])%list.

(** The variables of the copy: [a1], [a2] and the counter [i]. *)
Record copy_frame : Type := CopyFrame {
  a1 : list A;
  a2 : list A;
  idx : nat
}.

(** [i < a1.length] *)
Definition copy_test (f : copy_frame) : bool :=
  (idx f <? length (a1 f))%nat.

(** [a2.push(a1[i]); i++] *)
Definition copy_body (f : copy_frame) : copy_frame :=
  CopyFrame (a1 f)
    (push (a2 f) (element_at (a1 f) (Z.of_nat (idx f))))
    (S (idx f)).

(** [for(let i = 0; i < a1.length; i++) { a2.push(a1[i]); }] *)
Equations? copy_loop (f : copy_frame) : copy_frame
  by wf (length (a1 f) - idx f) lt :=
  copy_loop f with EchoTag.inspect (copy_test f) => {
    | exist _ true _ := copy_loop (copy_body f);
    | exist _ false _ := f }.
Proof.
  unfold copy_test in e. apply Nat.ltb_lt in e. simpl. lia.
Qed.

(** [var a2 = []; for (...) {...}], giving [a2]. *)
Definition copy (a : list A) : list A :=
  a2 (copy_loop (CopyFrame a [] 0)).

End Copy.

End Arrays.

(** ** The test "sets" *)

Module Sets.

Import JS.

(** Equality of two values as a [Set] sees it (SameValueZero): on the
    values of the model, being the same value; the number [1] and the
    string ["1"] differ. *)
Definition number_eqb (m n : number) : bool :=
  match m, n with
  | Int x, Int y => (x =? y)%Z
  | NaN, NaN => true
  | Infinity a, Infinity b => Bool.eqb a b
  | _, _ => false
  end.

Definition value_eqb (v w : value) : bool :=
  match v, w with
  | Undefined, Undefined => true
  | Null, Null => true
  | Boolean a, Boolean b => Bool.eqb a b
  | Number m, Number n => number_eqb m n
  | String s, String t => String.eqb s t
  | _, _ => false
  end.

(** A [Set]: its elements in insertion order. *)
Definition jsset : Type := list value.

(** [set.has(v)] *)
Definition has (s : jsset) (v : value) : bool :=
  existsb (value_eqb v) s.

(** [set.add(v)]: appended unless already there. *)
Definition add (s : jsset) (v : value) : jsset :=
  if has s v then s else (s ++ [v])%list.

(** [set.delete(v)] *)
Definition delete (s : jsset) (v : value) : jsset :=
  filter (fun w => negb (value_eqb v w)) s.

(** [set.size] *)
Definition size (s : jsset) : nat := length s.

(** [set.forEach((value, key, ownerSet) => { found.add(value); })] with
    [found] a set declared outside: the callback runs on the elements in
    insertion order. *)
Definition forEach_add (s found : jsset) : jsset :=
  fold_left add s found.

(** [let found = new Set(); set.forEach(...)], giving [found]. *)
Definition copy_set (s : jsset) : jsset := forEach_add s [].

(** The sets a program can build: from [new Set()] by [add] and
    [delete]. *)
Inductive built : jsset -> Prop :=
| built_new : built []
| built_add s v : built s -> built (add s v)
| built_delete s v : built s -> built (delete s v).

End Sets.

(** ** [echoTag] on every kind of substitution *)

Module Full.

Import JS.

(** A primitive: one of the values above, which have a text, or a
    Symbol, which string concatenation refuses. *)
Inductive prim : Type :=
| Text (v : value)
| Symbol (description : string).

(** What a call may throw: the [TypeError] of a failed conversion, or
    whatever the code of an object throws. *)
Inductive thrown : Type :=
| TypeError
| Raised (e : value).

(** How an evaluation ends. *)
Inductive outcome (A : Type) : Type :=
| Returns (a : A)
| Throws (e : thrown).
Arguments Returns {A} a.
Arguments Throws {A} e.

(** Which conversion an operation asks an object for: [+] and [+=] leave
    the choice open (the object's [valueOf] is tried first), a template
    without a tag asks for a string ([toString] first). *)
Inductive hint : Type :=
| HintDefault
| HintString.

Section WithStore.

(** The state of the program outside the call: whatever the methods of
    an object passed as a substitution can read and write. *)
Variable store : Type.

(** A computation that may read and change the state, and returns or
    throws. *)
Definition M (A : Type) : Type := store -> store * outcome A.

Definition ret {A : Type} (a : A) : M A :=
  fun st => (st, Returns a).

Definition throw {A : Type} (e : thrown) : M A :=
  fun st => (st, Throws e).

Definition bind {A B : Type} (m : M A) (k : A -> M B) : M B :=
  fun st =>
    match m st with
    | (st', Returns a) => k a st'
    | (st', Throws e) => (st', Throws e)
    end.

(** A method of an object: missing or not callable ([None]), or code
    that returns a primitive ([Some]) or an object ([None]). *)
Definition method : Type := option (M (option prim)).

(** An ordinary object, as far as a conversion to a primitive goes: its
    [valueOf] and [toString] (own or inherited), with no
    [Symbol.toPrimitive] method. *)
Record object : Type := {
  valueOf : method;
  toString : method
}.

(** Any value a substitution can be. *)
Inductive any : Type :=
| Primitive (p : prim)
| Object (o : object).

(** One step of [OrdinaryToPrimitive]: call the method when it is
    callable and keep a primitive result, go on otherwise. *)
Definition try_method (m : method) (otherwise : M prim) : M prim :=
  match m with
  | None => otherwise
  | Some call =>
      bind call (fun r =>
        match r with
        | Some p => ret p
        | None => otherwise
        end)
  end.

Definition OrdinaryToPrimitive (o : object) (h : hint) : M prim :=
  match h with
  | HintDefault =>
      try_method (valueOf o) (try_method (toString o) (throw TypeError))
  | HintString =>
      try_method (toString o) (try_method (valueOf o) (throw TypeError))
  end.

Definition ToPrimitive (a : any) (h : hint) : M prim :=
  match a with
  | Primitive p => ret p
  | Object o => OrdinaryToPrimitive o h
  end.

(** [ToString] on a primitive: a [TypeError] on a Symbol. *)
Definition ToStringPrim (p : prim) : M string :=
  match p with
  | Text v => ret (ToString v)
  | Symbol _ => throw TypeError
  end.

(** [s += a] with [s] a string: [a] is made a primitive, the primitive a
    string, and the string is appended. *)
Definition add_assign (s : string) (a : any) : M string :=
  bind (ToPrimitive a HintDefault) (fun p =>
  bind (ToStringPrim p) (fun t =>
  ret (s ++ t)%string)).

(** An element read from the array of substitutions. *)
Definition of_slot (e : option any) : any :=
  match e with
  | Some a => a
  | None => Primitive (Text Undefined)
  end.

(** The variables in scope in the body of [echoTag]. *)
Record frame : Type := Frame {
  literals : list string;
  substitutions : list any;
  result : string;
  i : nat
}.

(** [i < substitutions.length] *)
Definition loop_test (f : frame) : bool :=
  (i f <? length (substitutions f))%nat.

(** [result += literals[i]; result += substitutions[i]], giving the new
    [result]. *)
Definition loop_step (f : frame) : M string :=
  bind (add_assign (result f)
          (Primitive (Text (of_element (Get (literals f) (Z.of_nat (i f)))))))
    (fun r1 =>
  add_assign r1 (of_slot (Get (substitutions f) (Z.of_nat (i f))))).

(** The frame after one round: the new [result], and [i++]. *)
Definition next (f : frame) (r : string) : frame :=
  Frame (literals f) (substitutions f) r (S (i f)).

(** [for (let i = 0; i < substitutions.length; i++) { ... }]: a round
    that throws ends the loop and the call. *)
Equations? for_loop (f : frame) (st : store) : store * outcome frame
  by wf (length (substitutions f) - i f) lt :=
  for_loop f st with EchoTag.inspect (loop_test f) => {
    | exist _ false _ := (st, Returns f);
    | exist _ true _ with loop_step f st => {
        | (st', Returns r) := for_loop (next f r) st';
        | (st', Throws e) := (st', Throws e) } }.
Proof.
  unfold loop_test in e. apply Nat.ltb_lt in e. simpl. lia.
Qed.

(** The whole body, up to the frame at [return result]. *)
Definition run (lits : list string) (substs : list any) : M frame :=
  bind (for_loop (Frame lits substs "" 0)) (fun f1 =>
  let last := Get (literals f1) (Z.of_nat (length (literals f1)) - 1) in
  bind (add_assign (result f1) (Primitive (Text (of_element last))))
    (fun r =>
  ret (Frame (literals f1) (substitutions f1) r (i f1)))).

(** [echoTag(literals, ...substitutions)] *)
Definition echoTag (lits : list string) (substs : list any) : M string :=
  bind (run lits substs) (fun f => ret (result f)).

(** The substitutions of a template without a tag, from left to right:
    each is made a string and appended with the text that follows it. *)
Fixpoint untagged_spans (acc : string) (sp : list (any * string))
    : M string :=
  match sp with
  | [] => ret acc
  | (a, s) :: rest =>
      bind (ToPrimitive a HintString) (fun p =>
      bind (ToStringPrim p) (fun t =>
      untagged_spans (acc ++ t ++ s)%string rest))
  end.

(** [`head${a1}s1${a2}s2...`] without a tag. *)
Definition untagged (h : string) (sp : list (any * string)) : M string :=
  untagged_spans h sp.

(** [echoTag`head${a1}s1${a2}s2...`] *)
Definition tagged (h : string) (sp : list (any * string)) : M string :=
  echoTag (h :: map snd sp) (map fst sp).

End WithStore.

Arguments ret {store A} a.
Arguments throw {store A} e.
Arguments bind {store A B} m k.
Arguments Primitive {store} p.
Arguments Object {store} o.
Arguments Frame {store} literals substitutions result i.
Arguments literals {store} f.
Arguments substitutions {store} f.
Arguments result {store} f.
Arguments i {store} f.
Arguments loop_test {store} f.
Arguments loop_step {store} f.
Arguments next {store} f r.
Arguments for_loop {store} f st.
Arguments run {store} lits substs.
Arguments echoTag {store} lits substs.
Arguments untagged {store} h sp.
Arguments tagged {store} h sp.
Arguments add_assign {store} s a.
Arguments ToPrimitive {store} a h.
Arguments ToStringPrim {store} p.

(** A substitution that is one of the values which have a text. *)
Definition of_value {store : Type} (v : value) : any store :=
  Primitive (Text v).

(** A substitution that is a primitive. *)
Definition of_prim {store : Type} (p : prim) : any store :=
  Primitive p.

(** The values of a list of primitives, when none of them is a
    Symbol. *)
Fixpoint texts (ps : list prim) : option (list value) :=
  match ps with
  | [] => Some []
  | Text v :: rest => option_map (cons v) (texts rest)
  | Symbol _ :: _ => None
  end.

(** A span of a template whose substitution is a primitive. *)
Definition of_span {store : Type} (q : prim * string) : any store * string :=
  (of_prim (fst q), snd q).

(** The spans of a template with their values, when no substitution is
    a Symbol. *)
Fixpoint text_spans (sp : list (prim * string))
    : option (list (value * string)) :=
  match sp with
  | [] => Some []
  | (Text v, s) :: rest => option_map (cons (v, s)) (text_spans rest)
  | (Symbol _, _) :: _ => None
  end.

(** The object of
    [let n = 0; const counter = { valueOf() { return n++; } }]: the
    state is the variable [n]; [toString] is the inherited one. *)
Definition counter : any nat :=
  Object
    {| valueOf := Some (fun n => (S n, Returns (Some (Text (Number (Int (Z.of_nat n)))))));
       toString := Some (fun n => (n, Returns (Some (Text (String "[object Object]"))))) |}.

(** The object [{ valueOf() { return 1; }, toString() { return "one"; } }],
    in a program with no state. *)
Definition one : any unit :=
  Object
    {| valueOf := Some (fun st => (st, Returns (Some (Text (Number (Int 1))))));
       toString := Some (fun st => (st, Returns (Some (Text (String "one"))))) |}.

(** The object [{ toString() { throw "boom"; } }], in a program with no
    state: the inherited [valueOf] returns the object itself. *)
Definition thrower : any unit :=
  Object
    {| valueOf := Some (fun st => (st, Returns None));
       toString := Some (fun st => (st, Throws (Raised (String "boom")))) |}.

End Full.

(** * Properties *)

(** ** Strings *)

Section Strings.

Lemma append_assoc (a b c : string) : (a ++ b) ++ c = a ++ (b ++ c).
Proof.
  induction a as [|ch a IH]; simpl; [reflexivity | now rewrite IH].
Qed.

Lemma append_empty_r (a : string) : a ++ "" = a.
Proof.
  induction a as [|ch a IH]; simpl; [reflexivity | now rewrite IH].
Qed.

Lemma length_append (a b : string) :
  String.length (a ++ b) = String.length a + String.length b.
Proof.
  induction a as [|ch a IH]; simpl; [reflexivity | now rewrite IH].
Qed.

Lemma concat_cons (x : string) (xs : list string) :
  String.concat "" (x :: xs) = x ++ String.concat "" xs.
Proof.
  destruct xs as [|y ys]; simpl; [now rewrite append_empty_r | reflexivity].
Qed.

Lemma length_concat (xs : list string) :
  String.length (String.concat "" xs) = EchoTag.total_length xs.
Proof.
  unfold EchoTag.total_length.
  induction xs as [|x xs IH]; [reflexivity |].
  rewrite concat_cons, length_append, IH. reflexivity.
Qed.

End Strings.


(** ** Reading an array *)

Section Reads.

Import JS.

Lemma Get_of_nat {A : Type} (a : list A) (k : nat) :
  Get a (Z.of_nat k) = nth_error a k.
Proof.
  unfold Get.
  destruct (Z.ltb_spec (Z.of_nat k) 0) as [H|_]; [lia |].
  now rewrite Nat2Z.id.
Qed.

(** The text appended for [literals[k]]. *)
Lemma text_of_literal (lits : list string) (k : nat) :
  ToString (of_element (Get lits (Z.of_nat k))) = nth k lits "undefined".
Proof.
  rewrite Get_of_nat. revert k.
  induction lits as [|l lits IH]; intros [|k]; simpl; auto.
Qed.

(** The text appended for [substitutions[k]]. *)
Lemma text_of_substitution (substs : list value) (k : nat) :
  ToString (of_slot (Get substs (Z.of_nat k)))
  = ToString (nth k substs Undefined).
Proof.
  rewrite Get_of_nat. revert k.
  induction substs as [|v substs IH]; intros [|k]; simpl; auto.
Qed.

(** The text appended for [literals[literals.length - 1]]: the last
    element, or ["undefined"] when the array is empty (index [-1]). *)
Lemma text_of_last_literal (lits : list string) :
  ToString (of_element (Get lits (Z.of_nat (length lits) - 1)))
  = last lits "undefined".
Proof.
  destruct lits as [|l lits]; [reflexivity |].
  replace (Z.of_nat (length (l :: lits)) - 1)%Z
    with (Z.of_nat (length lits)) by (simpl length; lia).
  rewrite text_of_literal.
  revert l. induction lits as [|m lits IH]; intro l; [reflexivity |].
  change (nth (length (m :: lits)) (l :: m :: lits) "undefined")
    with (nth (length lits) (m :: lits) "undefined").
  rewrite IH. reflexivity.
Qed.

End Reads.

(** ** The loop *)

Section Loop.

Import JS EchoTag.

Lemma for_loop_unfold (f : frame) :
  for_loop f = if loop_test f then for_loop (loop_body f) else f.
Proof.
  funelim (for_loop f);
    match goal with E : loop_test _ = _ |- _ => rewrite E end;
    reflexivity.
Qed.

Lemma loop_body_spec lits substs r k :
  loop_body (Frame lits substs r k)
  = Frame lits substs (r ++ piece lits substs k) (S k).
Proof.
  unfold loop_body, add_assign, piece. simpl.
  rewrite text_of_literal, text_of_substitution, append_assoc.
  reflexivity.
Qed.

(** [n] rounds of the body append the pieces [k], ..., [k + n - 1]. *)
Lemma iter_loop_body n : forall lits substs r k,
  Nat.iter n loop_body (Frame lits substs r k)
  = Frame lits substs
      (r ++ String.concat "" (map (piece lits substs) (seq k n))) (k + n).
Proof.
  induction n as [|n IH]; intros lits substs r k.
  - simpl. now rewrite append_empty_r, Nat.add_0_r.
  - rewrite Nat.iter_succ_r, loop_body_spec, IH.
    cbn [seq map]. rewrite concat_cons, append_assoc.
    f_equal. lia.
Qed.

(** The loop is the body run once per index left. *)
Lemma for_loop_iter n : forall f,
  length (substitutions f) - i f = n ->
  for_loop f = Nat.iter n loop_body f.
Proof.
  induction n as [|n IH]; intros f Hn; rewrite for_loop_unfold;
    unfold loop_test.
  - destruct (Nat.ltb_spec (i f) (length (substitutions f))); [lia |].
    reflexivity.
  - destruct (Nat.ltb_spec (i f) (length (substitutions f))); [| lia].
    rewrite Nat.iter_succ_r. apply IH.
    destruct f; simpl in *. lia.
Qed.

Lemma for_loop_spec lits substs :
  for_loop (Frame lits substs "" 0)
  = Frame lits substs (String.concat "" (pieces lits substs))
      (length substs).
Proof.
  rewrite (for_loop_iter (length substs)) by (simpl; lia).
  now rewrite iter_loop_body.
Qed.

Lemma run_spec lits substs :
  run lits substs
  = Frame lits substs
      (String.concat "" (pieces lits substs) ++ last lits "undefined")
      (length substs).
Proof.
  unfold run. rewrite for_loop_spec. cbn [literals substitutions result i].
  unfold add_assign. now rewrite text_of_last_literal.
Qed.

Lemma echoTag_spec lits substs :
  echoTag lits substs
  = String.concat "" (pieces lits substs) ++ last lits "undefined".
Proof.
  unfold echoTag. now rewrite run_spec.
Qed.

End Loop.

(** ** The pieces, fragment by fragment *)

Section Pieces.

Import JS EchoTag.

Lemma pieces_nil lits : pieces lits [] = [].
Proof. reflexivity. Qed.

Lemma pieces_cons f lits v substs :
  pieces (f :: lits) (v :: substs)
  = (f ++ ToString v) :: pieces lits substs.
Proof.
  unfold pieces. cbn [length seq map]. f_equal.
  rewrite <- seq_shift, map_map. reflexivity.
Qed.

(** With no fragment left every read is out of range. *)
Lemma pieces_no_literal v substs :
  pieces [] (v :: substs)
  = ("undefined" ++ ToString v) :: pieces [] substs.
Proof.
  unfold pieces. cbn [length seq map]. f_equal.
  rewrite <- seq_shift, map_map. apply map_ext. now intros [|k].
Qed.

(** Only the fragments the loop reaches count. *)
Lemma pieces_firstn substs : forall lits,
  pieces (firstn (length substs) lits) substs = pieces lits substs.
Proof.
  induction substs as [|v substs IH]; intros [|f lits];
    try reflexivity.
  cbn [length firstn]. now rewrite !pieces_cons, IH.
Qed.

Lemma pieces_interleave substs : forall lits,
  length lits = length substs ->
  String.concat "" (pieces lits substs)
  = String.concat "" (interleave lits (map ToString substs)).
Proof.
  induction substs as [|v substs IH]; intros [|f lits] Hlen;
    try discriminate; [reflexivity |].
  rewrite pieces_cons. cbn [map interleave].
  rewrite !concat_cons, append_assoc, IH by (simpl in Hlen; lia).
  reflexivity.
Qed.

Lemma echoTag_cons f lits v substs :
  lits <> [] ->
  echoTag (f :: lits) (v :: substs)
  = f ++ ToString v ++ echoTag lits substs.
Proof.
  intro Hne. rewrite !echoTag_spec, pieces_cons, concat_cons.
  rewrite !append_assoc.
  destruct lits as [|m lits]; [contradiction | reflexivity].
Qed.

Lemma echoTag_single f : echoTag [f] [] = f.
Proof. now rewrite echoTag_spec. Qed.

Lemma last_nth (lits : list string) (d e : string) :
  lits <> [] -> last lits d = nth (length lits - 1) lits e.
Proof.
  induction lits as [|l lits IH]; intro Hne; [contradiction |].
  destruct lits as [|m lits]; [reflexivity |].
  change (last (l :: m :: lits) d) with (last (m :: lits) d).
  rewrite IH by discriminate.
  replace (length (l :: m :: lits) - 1)
    with (S (length (m :: lits) - 1)) by (simpl; lia).
  reflexivity.
Qed.

Lemma total_length_cons x xs :
  total_length (x :: xs) = String.length x + total_length xs.
Proof. reflexivity. Qed.

End Pieces.

(** ** The specification's algorithm and the code *)

Section Refinement.

Import JS EchoTag.

(** An accumulator that receives two texts per index holds, in the end,
    all of them in order. *)
Lemma fold_left_append (g h : nat -> string) (ks : list nat) : forall acc,
  fold_left (fun a k => (a ++ g k) ++ h k) ks acc
  = acc ++ String.concat "" (map (fun k => g k ++ h k) ks).
Proof.
  induction ks as [|k ks IH]; intro acc; cbn [fold_left map].
  - now rewrite append_empty_r.
  - now rewrite IH, concat_cons, !append_assoc.
Qed.

Lemma render_spec_pieces lits substs :
  length lits = length substs + 1 ->
  render_spec lits substs
  = String.concat "" (pieces lits substs) ++ last lits "undefined".
Proof.
  intro Hlen. unfold render_spec.
  replace (length lits - 1) with (length substs) by lia.
  rewrite (fold_left_append (fun k => nth k lits "")
             (fun k => ToString (nth k substs Undefined))).
  cbn [append].
  f_equal.
  - unfold pieces. f_equal. apply map_ext_in. intros k Hk.
    apply in_seq in Hk. unfold piece. f_equal.
    apply nth_indep. lia.
  - rewrite (last_nth lits "undefined" "")
      by (intros ->; simpl in Hlen; lia).
    f_equal. lia.
Qed.

Lemma echoTag_concat_interleave substs : forall lits,
  length lits = length substs + 1 ->
  echoTag lits substs
  = String.concat "" (interleave lits (map ToString substs)).
Proof.
  induction substs as [|v substs IH]; intros lits Hlen.
  - destruct lits as [|f [|m lits]]; try discriminate.
    now rewrite echoTag_single.
  - destruct lits as [|f lits]; [discriminate |].
    assert (Hne : lits <> []) by (intros ->; simpl in Hlen; lia).
    rewrite echoTag_cons by exact Hne.
    cbn [map interleave]. rewrite !concat_cons.
    rewrite IH by (simpl in Hlen; lia). reflexivity.
Qed.

Lemma total_length_interleave texts : forall lits,
  length lits = length texts + 1 ->
  total_length (interleave lits texts)
  = total_length lits + total_length texts.
Proof.
  induction texts as [|t texts IH]; intros lits Hlen.
  - destruct lits as [|f lits]; [discriminate |].
    unfold total_length at 3. simpl. lia.
  - destruct lits as [|f lits]; [discriminate |].
    cbn [interleave]. rewrite !total_length_cons.
    rewrite IH by (simpl in Hlen; lia). lia.
Qed.

End Refinement.

(** ** What [echoTag] returns *)

Section EchoTagResults.

Import JS EchoTag.

(** C2. When there is exactly one fragment more than there are
    substitutions, [echoTag] returns what the specification's algorithm
    builds (an empty accumulator, then [fragments[k]] and the text of
    [substitutions[k]] for [k] from [0] to [N-2], then [fragments[N-1]]),
    and that string is the concatenation of the fragments and the texts
    of the substitutions interleaved in source order, each piece taken as
    it is. *)
Theorem echoTag_interleaves (lits : list string) (substs : list value) :
  length lits = length substs + 1 ->
  echoTag lits substs = render_spec lits substs /\
  echoTag lits substs
  = String.concat "" (interleave lits (map ToString substs)).
Proof.
  intro Hlen. split.
  - rewrite render_spec_pieces by exact Hlen. apply echoTag_spec.
  - apply echoTag_concat_interleave, Hlen.
Qed.

Lemma echoTag_interleaves_witness :
  length ["Hello, "; "! It is "; "."]
  = length [String "damon"; Number (Int 7)] + 1 /\
  echoTag ["Hello, "; "! It is "; "."] [String "damon"; Number (Int 7)]
  = render_spec ["Hello, "; "! It is "; "."]
      [String "damon"; Number (Int 7)] /\
  echoTag ["Hello, "; "! It is "; "."] [String "damon"; Number (Int 7)]
  = String.concat ""
      (interleave ["Hello, "; "! It is "; "."]
         (map ToString [String "damon"; Number (Int 7)])).
Proof.
  split; [reflexivity |].
  apply (echoTag_interleaves ["Hello, "; "! It is "; "."]
           [String "damon"; Number (Int 7)]).
  reflexivity.
Defined.

(** C3. When there is exactly one fragment more than there are
    substitutions, the length of the string [echoTag] returns is the sum
    of the lengths of the fragments plus the sum of the lengths of the
    texts of the substitutions. *)
Theorem echoTag_length (lits : list string) (substs : list value) :
  length lits = length substs + 1 ->
  String.length (echoTag lits substs)
  = list_sum (map String.length lits)
    + list_sum (map (fun v => String.length (ToString v)) substs).
Proof.
  intro Hlen.
  rewrite echoTag_concat_interleave by exact Hlen.
  rewrite length_concat, total_length_interleave
    by (now rewrite length_map).
  unfold total_length. now rewrite map_map.
Qed.

Lemma echoTag_length_witness :
  length [""; " items cost $"; "."]
  = length [Number (Int 10); String "2.50"] + 1 /\
  String.length
    (echoTag [""; " items cost $"; "."] [Number (Int 10); String "2.50"])
  = list_sum (map String.length [""; " items cost $"; "."])
    + list_sum (map (fun v => String.length (ToString v))
                  [Number (Int 10); String "2.50"]).
Proof.
  split; [reflexivity |].
  apply (echoTag_length [""; " items cost $"; "."]
           [Number (Int 10); String "2.50"]).
  reflexivity.
Defined.

(** C5. With a single fragment and no substitution, [echoTag] returns
    that fragment unchanged. *)
Theorem echoTag_no_substitution (f : string) : echoTag [f] [] = f.
Proof.
  rewrite echoTag_spec, pieces_nil. reflexivity.
Qed.

(** C6. On the fragments [""], [" items cost $"], ["."] and the
    substitutions [10] (a Number, whose text is ["10"]) and ["2.50"],
    [echoTag] returns ["10 items cost $2.50."]: the call the test of the
    source makes. *)
Theorem echoTag_items_cost :
  ToString (Number (Int 10)) = "10" /\
  echoTag [""; " items cost $"; "."] [Number (Int 10); String "2.50"]
  = "10 items cost $2.50.".
Proof.
  split; [reflexivity |].
  rewrite echoTag_spec. reflexivity.
Qed.

(** C7. On the fragments ["a"], ["b"] and the substitution ["X"],
    [echoTag] returns ["aXb"]. *)
Theorem echoTag_aXb : echoTag ["a"; "b"] [String "X"] = "aXb".
Proof.
  rewrite echoTag_spec. reflexivity.
Qed.

End EchoTagResults.

(** ** Inputs whose lengths do not match *)

Section Mismatch.

Import JS EchoTag.

Lemma pieces_no_literals substs :
  pieces [] substs = map (fun v => "undefined" ++ ToString v) substs.
Proof.
  induction substs as [|v substs IH]; [reflexivity |].
  now rewrite pieces_no_literal, IH.
Qed.

Lemma last_default (lits : list string) (d e : string) :
  lits <> [] -> last lits d = last lits e.
Proof.
  intro Hne.
  now rewrite (last_nth lits d ""), (last_nth lits e "").
Qed.

(** The test of the loop fails at the frame the loop stops in. *)
Lemma for_loop_exit lits substs :
  loop_test (for_loop (Frame lits substs "" 0)) = false.
Proof.
  rewrite for_loop_spec. unfold loop_test. cbn [i substitutions].
  apply Nat.ltb_irrefl.
Qed.




(** On fragments that are strings and substitutions that have a text,
    whatever their lengths, [echoTag]
    returns a string: the loop is its body run once per substitution, it
    stops on its test at [i = substitutions.length]; a read of
    [literals[k]] out of
    range contributes the text ["undefined"] (so with no fragment at all
    every piece starts with it); and what is read at
    [literals[literals.length - 1]] comes last.  Fragments are strings
    and substitutions are values that have a text. *)
Theorem echoTag_total (lits : list string) (substs : list value) :
  for_loop (Frame lits substs "" 0)
  = Nat.iter (length substs) loop_body (Frame lits substs "" 0) /\
  loop_test (for_loop (Frame lits substs "" 0)) = false /\
  i (run lits substs) = length substs /\
  echoTag lits substs
  = String.concat ""
      (map (fun k => nth k lits "undefined"
                     ++ ToString (nth k substs Undefined))
         (seq 0 (length substs)))
    ++ last lits "undefined" /\
  echoTag [] substs
  = String.concat "" (map (fun v => "undefined" ++ ToString v) substs)
    ++ "undefined".
Proof.
  split; [| split; [| split; [| split]]].
  - apply for_loop_iter. simpl. lia.
  - apply for_loop_exit.
  - now rewrite run_spec.
  - apply echoTag_spec.
  - now rewrite echoTag_spec, pieces_no_literals.
Qed.

(** C9. With more fragments than substitutions plus one, the fragments
    at the indices [substitutions.length] to [literals.length - 2] do not
    reach the output: the result is the interleaving of the first
    [substitutions.length] fragments with the substitutions, followed at
    once by the last fragment, which is also what [echoTag] returns once
    those fragments are taken out. *)
Theorem echoTag_skips_fragments (lits : list string) (substs : list value) :
  length lits > length substs + 1 ->
  echoTag lits substs
  = String.concat ""
      (interleave (firstn (length substs) lits) (map ToString substs))
    ++ last lits "" /\
  echoTag lits substs
  = echoTag (firstn (length substs) lits ++ [last lits ""]%list) substs.
Proof.
  intro Hlen.
  assert (Hne : lits <> []) by (intros ->; simpl in Hlen; lia).
  assert (Hfirst : length (firstn (length substs) lits) = length substs)
    by (rewrite length_firstn; lia).
  assert (Hmain : echoTag lits substs
                  = String.concat "" (pieces (firstn (length substs) lits) substs)
                    ++ last lits "").
  { rewrite echoTag_spec, pieces_firstn.
    now rewrite (last_default lits "undefined" "") by exact Hne. }
  split.
  - rewrite Hmain. now rewrite pieces_interleave by exact Hfirst.
  - rewrite Hmain, (echoTag_spec (_ ++ _)%list), last_last.
    rewrite <- (pieces_firstn substs (_ ++ _)%list).
    rewrite firstn_app, Hfirst, Nat.sub_diag, firstn_O, app_nil_r.
    now rewrite firstn_firstn, Nat.min_id.
Qed.

Lemma echoTag_skips_fragments_witness :
  length ["a"; "b"; "c"] > length (@nil value) + 1 /\
  echoTag ["a"; "b"; "c"] [] = "c".
Proof.
  assert (H : length ["a"; "b"; "c"] > length (@nil value) + 1)
    by (simpl; lia).
  split; [exact H |].
  rewrite (proj1 (echoTag_skips_fragments ["a"; "b"; "c"] [] H)).
  reflexivity.
Defined.

End Mismatch.

(** ** The [Hello] component *)

Section HelloRender.

Import Hello.

(** [render] never looks at the component it is called on. *)
Lemma render_ignores_this React_binding Hello_binding globals this this' :
  render React_binding Hello_binding globals this
  = render React_binding Hello_binding globals this'.
Proof. reflexivity. Qed.

(** C10, as the code has it.  The body of [render] reads the bare
    identifier [props], not [this.props]; where no scope binds that name
    the call throws a [ReferenceError] for every [HelloProps], and no
    heading is returned. *)
Theorem render_throws React_binding Hello_binding globals (this : instance) :
  lookup "props" globals = None ->
  render React_binding Hello_binding globals this
  = Throw (ReferenceError "props") /\
  render React_binding Hello_binding globals this
  <> Normal (heading (props this)).
Proof.
  intro Hfree.
  assert (H : render React_binding Hello_binding globals this
              = Throw (ReferenceError "props")).
  { unfold render, resolve, render_scope. cbn [lookup String.eqb Ascii.eqb Bool.eqb].
    now rewrite Hfree. }
  split; [exact H | rewrite H; discriminate].
Qed.

Lemma render_throws_witness :
  lookup "props" [("window", Obj [])] = None /\
  render (Obj []) (Obj []) [("window", Obj [])]
    {| props := {| compiler := "TypeScript"; framework := "React" |} |}
  = Throw (ReferenceError "props").
Proof.
  split; [reflexivity |].
  apply (render_throws (Obj []) (Obj []) [("window", Obj [])]
           {| props := {| compiler := "TypeScript"; framework := "React" |} |}).
  reflexivity.
Defined.

End HelloRender.

(** ** More on [echoTag] *)

Section EchoTagMore.

Import JS EchoTag Template.

Lemma concat_app (xs ys : list string) :
  String.concat "" (xs ++ ys)%list
  = String.concat "" xs ++ String.concat "" ys.
Proof.
  induction xs as [|x xs IH]; [reflexivity |].
  change ((x :: xs) ++ ys)%list with (x :: (xs ++ ys))%list.
  now rewrite !concat_cons, IH, append_assoc.
Qed.

Lemma pieces_app l1 : forall s1 l2 s2,
  length l1 = length s1 ->
  pieces (l1 ++ l2)%list (s1 ++ s2)%list
  = (pieces l1 s1 ++ pieces l2 s2)%list.
Proof.
  induction l1 as [|f l1 IH]; intros [|v s1] l2 s2 Hlen;
    try discriminate; [reflexivity |].
  cbn [app]. rewrite !pieces_cons, IH by (simpl in Hlen; lia).
  reflexivity.
Qed.

Lemma last_app_nonempty (l1 l2 : list string) (d : string) :
  l2 <> [] -> last (l1 ++ l2)%list d = last l2 d.
Proof.
  intro Hne. destruct (exists_last Hne) as [l' [x ->]].
  now rewrite app_assoc, !last_last.
Qed.

Lemma interleave_spans (sp : list (value * string)) : forall h,
  String.concat ""
    (interleave (h :: map snd sp) (map ToString (map fst sp)))
  = h ++ String.concat "" (map (fun p => ToString (fst p) ++ snd p) sp).
Proof.
  induction sp as [|[v s] sp IH]; intro h.
  - cbn [map interleave String.concat]. now rewrite append_empty_r.
  - cbn [map fst snd].
    change (interleave (h :: s :: map snd sp)
              (ToString v :: map ToString (map fst sp)))
      with (h :: ToString v
              :: interleave (s :: map snd sp) (map ToString (map fst sp))).
    rewrite 2!concat_cons, IH, concat_cons.
    now rewrite append_assoc.
Qed.

Lemma pieces_too_few l : forall s,
  length l <= length s ->
  pieces l s
  = (pieces l (firstn (length l) s)
     ++ map (fun v => ("undefined" ++ ToString v)%string)
          (skipn (length l) s))%list.
Proof.
  induction l as [|f l IH]; intros s Hlen.
  - cbn [length firstn skipn]. now rewrite pieces_nil, pieces_no_literals.
  - destruct s as [|v s]; [simpl in Hlen; lia |].
    cbn [length firstn skipn]. rewrite !pieces_cons.
    rewrite IH by (simpl in Hlen; lia). reflexivity.
Qed.

(** A template tagged with [echoTag] evaluates to what the same template
    evaluates to without a tag; and the call a tagged template makes
    always passes one string more than it passes values. *)
Theorem echoTag_echoes (t : template) :
  length (strings t) = length (values t) + 1 /\
  tagged echoTag t = untagged t.
Proof.
  assert (Hlen : length (strings t) = length (values t) + 1).
  { unfold strings, values. cbn [length]. rewrite !length_map. lia. }
  split; [exact Hlen |].
  unfold tagged. rewrite echoTag_concat_interleave by exact Hlen.
  apply interleave_spans.
Qed.

(** X2. [echoTag] sees its substitutions through their text only: two lists
    of substitutions with the same texts give the same result, on any
    fragments. *)
Theorem echoTag_texts_only (lits : list string) (substs substs' : list value) :
  map ToString substs = map ToString substs' ->
  echoTag lits substs = echoTag lits substs'.
Proof.
  intro Htexts. rewrite !echoTag_spec. f_equal. f_equal.
  assert (Hlen : length substs = length substs').
  { rewrite <- (length_map ToString substs), Htexts. apply length_map. }
  unfold pieces. rewrite <- Hlen. apply map_ext. intro k.
  unfold piece. f_equal.
  change "undefined" with (ToString Undefined).
  now rewrite <- !(map_nth ToString), Htexts.
Qed.

Lemma echoTag_texts_only_witness :
  map ToString [Number (Int 10); Boolean true]
  = map ToString [String "10"; String "true"] /\
  echoTag ["a"; "b"; "c"] [Number (Int 10); Boolean true]
  = echoTag ["a"; "b"; "c"] [String "10"; String "true"].
Proof.
  split; [reflexivity |].
  apply (echoTag_texts_only ["a"; "b"; "c"]
           [Number (Int 10); Boolean true] [String "10"; String "true"]).
  reflexivity.
Defined.

(** X3. With no more fragments than substitutions, [echoTag] interleaves the
    fragments with as many substitutions, puts ["undefined"] in front of
    each substitution left, and ends with the last fragment once more
    (with ["undefined"] when there is no fragment). *)
Theorem echoTag_too_few_fragments (lits : list string) (substs : list value) :
  length lits <= length substs ->
  echoTag lits substs
  = String.concat ""
      (interleave lits (map ToString (firstn (length lits) substs)))
    ++ String.concat ""
         (map (fun v => "undefined" ++ ToString v)
            (skipn (length lits) substs))
    ++ last lits "undefined".
Proof.
  intro Hlen.
  rewrite echoTag_spec, pieces_too_few, concat_app by exact Hlen.
  rewrite pieces_interleave by (rewrite length_firstn; lia).
  now rewrite append_assoc.
Qed.

Lemma echoTag_too_few_fragments_witness :
  length ["a"; "b"] <= length [String "X"; String "Y"; String "Z"] /\
  echoTag ["a"; "b"] [String "X"; String "Y"; String "Z"]
  = "aXbYundefinedZb".
Proof.
  assert (H : length ["a"; "b"]
              <= length [String "X"; String "Y"; String "Z"])
    by (simpl; lia).
  split; [exact H |].
  rewrite (echoTag_too_few_fragments ["a"; "b"]
             [String "X"; String "Y"; String "Z"] H).
  reflexivity.
Defined.

(** X4. Templates compose: when the first fragments are as many as the
    first substitutions and some fragment follows, the result on the
    two parts put end to end is the result on the first part (closed by
    an empty fragment) followed by the result on the second. *)
Theorem echoTag_app (l1 l2 : list string) (s1 s2 : list value) :
  length l1 = length s1 -> l2 <> [] ->
  echoTag (l1 ++ l2)%list (s1 ++ s2)%list
  = echoTag (l1 ++ [""])%list s1 ++ echoTag l2 s2.
Proof.
  intros Hlen Hne. rewrite !echoTag_spec.
  rewrite pieces_app, concat_app by exact Hlen.
  rewrite last_app_nonempty by exact Hne.
  rewrite <- (app_nil_r s1) at 2.
  rewrite pieces_app by exact Hlen.
  rewrite pieces_nil, app_nil_r, last_last, append_empty_r.
  now rewrite append_assoc.
Qed.

Lemma echoTag_app_witness :
  length ["a"; "b"] = length [String "X"; String "Y"] /\
  ["c"; "d"] <> [] /\
  echoTag (["a"; "b"] ++ ["c"; "d"])%list
    ([String "X"; String "Y"] ++ [String "Z"])%list
  = echoTag (["a"; "b"] ++ [""])%list [String "X"; String "Y"]
    ++ echoTag ["c"; "d"] [String "Z"].
Proof.
  split; [reflexivity |].
  assert (H : ["c"; "d"] <> []) by discriminate.
  split; [exact H |].
  apply (echoTag_app ["a"; "b"] ["c"; "d"]
           [String "X"; String "Y"] [String "Z"] eq_refl H).
Defined.

End EchoTagMore.

(** ** The copy loops of the tests "string iterating" and "arrays" *)

Section StringCopy.

Import JS StringIterating.

Lemma iter_loop_unfold (f : iter_frame) :
  iter_loop f = if iter_test f then iter_loop (iter_body f) else f.
Proof.
  funelim (iter_loop f);
    match goal with E : iter_test _ = _ |- _ => rewrite E end;
    reflexivity.
Qed.

(** In range, [s[k]] is the one-character string at [k]. *)
Lemma char_at_substring (s : string) : forall k,
  k < String.length s ->
  ToString (char_at s (Z.of_nat k)) = substring k 1 s.
Proof.
  unfold char_at. intro k.
  destruct (Z.ltb_spec (Z.of_nat k) 0) as [H|_]; [lia |].
  rewrite Nat2Z.id. revert k.
  induction s as [|c s IH]; intros k Hk; [simpl in Hk; lia |].
  destruct k as [|k].
  - cbn. now destruct s.
  - cbn [String.get substring]. apply IH. simpl in Hk. lia.
Qed.

Lemma substring_snoc (s : string) : forall k n,
  k + n < String.length s ->
  substring k n s ++ substring (k + n) 1 s = substring k (S n) s.
Proof.
  induction s as [|c s IH]; intros k n Hlt; [simpl in Hlt; lia |].
  destruct k as [|k].
  - destruct n as [|n].
    + cbn. now destruct s.
    + cbn [Nat.add substring append]. f_equal.
      apply (IH 0 n). simpl in Hlt. lia.
  - cbn [Nat.add substring]. apply IH. simpl in Hlt. lia.
Qed.

Lemma substring_all (s : string) : substring 0 (String.length s) s = s.
Proof.
  induction s as [|c s IH]; [reflexivity |].
  cbn [String.length substring]. now rewrite IH.
Qed.

Lemma iter_rounds (n : string) : forall k,
  k <= String.length n ->
  Nat.iter k iter_body (IterFrame n "" 0)
  = IterFrame n (substring 0 k n) k.
Proof.
  induction k as [|k IH]; intro Hk.
  - cbn. now destruct n.
  - rewrite Nat.iter_succ, IH by lia.
    unfold iter_body, add_assign. cbn [name found pos].
    rewrite char_at_substring by lia.
    pose proof (substring_snoc n 0 k) as Hsnoc. cbn [Nat.add] in Hsnoc.
    now rewrite Hsnoc by lia.
Qed.

Lemma iter_loop_rounds k : forall f,
  String.length (name f) - pos f = k ->
  iter_loop f = Nat.iter k iter_body f.
Proof.
  induction k as [|k IH]; intros f Hk; rewrite iter_loop_unfold;
    unfold iter_test.
  - destruct (Nat.ltb_spec (pos f) (String.length (name f))); [lia |].
    reflexivity.
  - destruct (Nat.ltb_spec (pos f) (String.length (name f))); [| lia].
    rewrite Nat.iter_succ_r. apply IH.
    destruct f; simpl in *. lia.
Qed.

(** X5. The loop of the test "string iterating" rebuilds the string it goes
    through, whatever that string is: [found] ends equal to [name], after
    one round per character. *)
Theorem iterate_rebuilds (n : string) :
  iterate n = n /\
  pos (iter_loop (IterFrame n "" 0)) = String.length n.
Proof.
  unfold iterate.
  rewrite (iter_loop_rounds (String.length n)) by (simpl; lia).
  rewrite iter_rounds by lia. cbn [found pos].
  now rewrite substring_all.
Qed.

(** X6. What the loop keeps true: after [k] rounds, [found] is the first [k]
    characters of [name] and [i] is [k]; no round reads past the end, so
    the text ["undefined"] never enters [found]. *)
Theorem iterate_invariant (n : string) (k : nat) :
  k <= String.length n ->
  found (Nat.iter k iter_body (IterFrame n "" 0)) = substring 0 k n /\
  pos (Nat.iter k iter_body (IterFrame n "" 0)) = k /\
  String.length (found (Nat.iter k iter_body (IterFrame n "" 0))) = k.
Proof.
  intro Hk. rewrite iter_rounds by exact Hk. cbn [found pos].
  split; [reflexivity | split; [reflexivity |]].
  clear - Hk. revert k Hk.
  induction n as [|c n IH]; intros [|k] Hk; try reflexivity;
    [simpl in Hk; lia |].
  cbn [substring String.length]. f_equal. apply IH. simpl in Hk. lia.
Qed.

Lemma iterate_invariant_witness :
  3 <= String.length "damon" /\
  found (Nat.iter 3 iter_body (IterFrame "damon" "" 0)) = "dam".
Proof.
  assert (H : 3 <= String.length "damon") by (simpl; lia).
  split; [exact H |].
  rewrite (proj1 (iterate_invariant "damon" 3 H)). reflexivity.
Defined.

End StringCopy.

Section ArrayCopy.

Import JS Arrays.

Variable A : Type.
Variable undefined : A.

Lemma copy_loop_unfold (f : copy_frame A) :
  copy_loop A undefined f
  = if copy_test A f then copy_loop A undefined (copy_body A undefined f)
    else f.
Proof.
  funelim (copy_loop A undefined f);
    match goal with E : copy_test _ _ = _ |- _ => rewrite E end;
    reflexivity.
Qed.

Lemma firstn_snoc (a : list A) : forall k,
  k < length a ->
  (firstn k a ++ [element_at A undefined a (Z.of_nat k)])%list
  = firstn (S k) a.
Proof.
  unfold element_at. intro k. rewrite Get_of_nat. revert k.
  induction a as [|x a IH]; intros k Hk; [simpl in Hk; lia |].
  destruct k as [|k]; [reflexivity |].
  cbn [firstn nth_error app]. f_equal. apply IH. simpl in Hk. lia.
Qed.

Lemma copy_rounds (a : list A) : forall k,
  k <= length a ->
  Nat.iter k (copy_body A undefined) (CopyFrame A a [] 0)
  = CopyFrame A a (firstn k a) k.
Proof.
  induction k as [|k IH]; intro Hk; [reflexivity |].
  rewrite Nat.iter_succ, IH by lia.
  unfold copy_body, push. cbn [a1 a2 idx].
  now rewrite firstn_snoc by lia.
Qed.

Lemma copy_loop_rounds k : forall f : copy_frame A,
  length (a1 A f) - idx A f = k ->
  copy_loop A undefined f = Nat.iter k (copy_body A undefined) f.
Proof.
  induction k as [|k IH]; intros f Hk; rewrite copy_loop_unfold;
    unfold copy_test.
  - destruct (Nat.ltb_spec (idx A f) (length (a1 A f))); [lia |].
    reflexivity.
  - destruct (Nat.ltb_spec (idx A f) (length (a1 A f))); [| lia].
    rewrite Nat.iter_succ_r. apply IH.
    destruct f; simpl in *. lia.
Qed.

(** X7. The loop of the test "arrays" copies any array: [a2] ends with the
    elements of [a1] in the same order, and [a1] is left as it was; the
    value of a read out of range plays no part. *)
Theorem copy_equal (a : list A) :
  copy A undefined a = a /\
  a1 A (copy_loop A undefined (CopyFrame A a [] 0)) = a /\
  length (copy A undefined a) = length a.
Proof.
  unfold copy.
  rewrite (copy_loop_rounds (length a)) by (simpl; lia).
  rewrite copy_rounds by lia. cbn [a1 a2].
  now rewrite firstn_all.
Qed.

(** X8. What the copy keeps true: after [k] rounds [a2] holds the first [k]
    elements of [a1]. *)
Theorem copy_invariant (a : list A) (k : nat) :
  k <= length a ->
  a2 A (Nat.iter k (copy_body A undefined) (CopyFrame A a [] 0))
  = firstn k a /\
  idx A (Nat.iter k (copy_body A undefined) (CopyFrame A a [] 0)) = k.
Proof.
  intro Hk. now rewrite copy_rounds by exact Hk.
Qed.

End ArrayCopy.

Section ArrayCopyExample.

Import JS Arrays.

Lemma copy_invariant_witness :
  2 <= length [String "tree"; Number (Int 20); Null] /\
  a2 value
    (Nat.iter 2 (copy_body value Undefined)
       (CopyFrame value [String "tree"; Number (Int 20); Null] [] 0))
  = [String "tree"; Number (Int 20)].
Proof.
  assert (H : 2 <= length [String "tree"; Number (Int 20); Null])
    by (simpl; lia).
  split; [exact H |].
  rewrite (proj1 (copy_invariant value Undefined
                    [String "tree"; Number (Int 20); Null] 2 H)).
  reflexivity.
Defined.

End ArrayCopyExample.

(** ** The test "sets" *)

Section SetCopy.

Import JS Sets.

Lemma number_eqb_eq (m n : number) : number_eqb m n = true <-> m = n.
Proof.
  destruct m as [x| |a], n as [y| |b]; simpl;
    try (split; [discriminate | congruence]);
    try (split; reflexivity).
  - rewrite Z.eqb_eq. split; congruence.
  - rewrite Bool.eqb_true_iff. split; congruence.
Qed.

Lemma value_eqb_eq (v w : value) : value_eqb v w = true <-> v = w.
Proof.
  destruct v as [| |a|m|s], w as [| |b|n|t]; simpl;
    try (split; [discriminate | congruence]);
    try (split; reflexivity).
  - rewrite Bool.eqb_true_iff. split; congruence.
  - rewrite number_eqb_eq. split; congruence.
  - rewrite String.eqb_eq. split; congruence.
Qed.

Lemma has_In (s : jsset) (v : value) : has s v = true <-> In v s.
Proof.
  unfold has. rewrite existsb_exists. split.
  - intros [w [Hin Heq]]. apply value_eqb_eq in Heq. now subst.
  - intro Hin. exists v. split; [exact Hin | now apply value_eqb_eq].
Qed.

Lemma has_not_In (s : jsset) (v : value) : has s v = false <-> ~ In v s.
Proof.
  rewrite <- has_In. destruct (has s v); split; congruence.
Qed.

Lemma add_NoDup (s : jsset) (v : value) : NoDup s -> NoDup (add s v).
Proof.
  intro Hs. unfold add. destruct (has s v) eqn:Hhas; [exact Hs |].
  apply has_not_In in Hhas.
  apply NoDup_app; [exact Hs | repeat constructor; intros [] | ].
  intros x Hx [<-|[]]. contradiction.
Qed.

Lemma delete_NoDup (s : jsset) (v : value) : NoDup s -> NoDup (delete s v).
Proof.
  intro Hs. now apply NoDup_filter.
Qed.

(** The elements of a set a program builds are pairwise distinct. *)
Lemma built_NoDup (s : jsset) : built s -> NoDup s.
Proof.
  induction 1; [constructor | now apply add_NoDup | now apply delete_NoDup].
Qed.

Lemma forEach_add_app (s : jsset) : forall found,
  NoDup (found ++ s)%list ->
  forEach_add s found = (found ++ s)%list.
Proof.
  unfold forEach_add.
  induction s as [|v s IH]; intros found Hnd; cbn [fold_left].
  - now rewrite app_nil_r.
  - assert (Hfresh : has found v = false).
    { apply has_not_In. intro Hin.
      apply NoDup_remove_2 in Hnd. apply Hnd, in_or_app. now left. }
    unfold add at 2. rewrite Hfresh.
    rewrite IH; rewrite <- app_assoc; [reflexivity | exact Hnd].
Qed.

(** X9. Copying a set with [forEach] and [add], as the test does, gives a
    set with the same elements in the same order, for every set built
    from [new Set()] by [add] and [delete]. *)
Theorem copy_set_equal (s : jsset) :
  built s -> copy_set s = s /\ size (copy_set s) = size s.
Proof.
  intro Hs. apply built_NoDup in Hs.
  assert (H : copy_set s = s)
    by (unfold copy_set; now rewrite forEach_add_app).
  now rewrite H.
Qed.

Lemma copy_set_equal_witness :
  built (add (add [] (Number (Int 1))) (String "1")) /\
  copy_set (add (add [] (Number (Int 1))) (String "1"))
  = [Number (Int 1); String "1"].
Proof.
  assert (H : built (add (add [] (Number (Int 1))) (String "1")))
    by (do 2 apply built_add; apply built_new).
  split; [exact H |].
  rewrite (proj1 (copy_set_equal _ H)). reflexivity.
Defined.

(** X10. Deleting a value that is not in the set changes nothing (the test
    notes it is "ok to remove a value not in the set"). *)
Theorem delete_absent (s : jsset) (v : value) :
  has s v = false -> delete s v = s /\ size (delete s v) = size s.
Proof.
  intro Hhas. apply has_not_In in Hhas.
  assert (H : delete s v = s).
  { unfold delete. induction s as [|w s IH]; [reflexivity |].
    cbn [filter]. destruct (value_eqb v w) eqn:Heq.
    - apply value_eqb_eq in Heq. subst. exfalso. apply Hhas. now left.
    - cbn [negb]. f_equal. apply IH. intro Hin. apply Hhas. now right. }
  now rewrite H.
Qed.

Lemma delete_absent_witness :
  has [Number (Int 1)] (String "test") = false /\
  delete [Number (Int 1)] (String "test") = [Number (Int 1)].
Proof.
  split; [reflexivity |].
  apply (delete_absent [Number (Int 1)] (String "test")). reflexivity.
Defined.

End SetCopy.

(** ** [Hello.render] where a scope does bind [props] *)

Section HelloGlobal.

Import Hello.

(** X11. Where an enclosing scope binds [props] to an object that has the
    two string properties, [render] returns the heading for that
    object's properties, on whatever component it is called: the
    component's own properties do not show. *)
Theorem render_shows_global React_binding Hello_binding globals
    (fields : list (string * jsval)) (p : HelloProps) (this : instance) :
  lookup "props" globals = Some (Obj fields) ->
  lookup "compiler" fields = Some (Str (compiler p)) ->
  lookup "framework" fields = Some (Str (framework p)) ->
  render React_binding Hello_binding globals this = Normal (heading p).
Proof.
  intros Hprops Hc Hf.
  unfold render, resolve, render_scope.
  cbn [lookup String.eqb Ascii.eqb Bool.eqb]. rewrite Hprops.
  cbn [bind member]. rewrite Hc, Hf. reflexivity.
Qed.

Lemma render_shows_global_witness :
  render (Obj []) (Obj [])
    [("props", Obj [("compiler", Str "Babel"); ("framework", Str "Vue")])]
    {| props := {| compiler := "TypeScript"; framework := "React" |} |}
  = Normal (heading {| compiler := "Babel"; framework := "Vue" |}).
Proof.
  apply (render_shows_global (Obj []) (Obj [])
           [("props", Obj [("compiler", Str "Babel"); ("framework", Str "Vue")])]
           [("compiler", Str "Babel"); ("framework", Str "Vue")]
           {| compiler := "Babel"; framework := "Vue" |});
    reflexivity.
Defined.

End HelloGlobal.

(** ** [echoTag] on primitives, Symbols and objects *)

Section FullLoop.

Import JS.

Variable store : Type.

Lemma full_for_loop_unfold (f : Full.frame store) (st : store) :
  Full.for_loop f st
  = if Full.loop_test f
    then match Full.loop_step f st with
         | (st', Full.Returns r) => Full.for_loop (Full.next f r) st'
         | (st', Full.Throws e) => (st', Full.Throws e)
         end
    else (st, Full.Returns f).
Proof.
  funelim (Full.for_loop f st);
    try match goal with
        | E : Full.loop_test _ = _ |- _ => rewrite E
        end;
    try match goal with
        | E : Full.loop_step _ _ = _ |- _ => rewrite E
        end;
    reflexivity.
Qed.

Lemma Get_map {A B : Type} (g : A -> B) (a : list A) (k : Z) :
  Get (map g a) k = option_map g (Get a k).
Proof.
  unfold Get. destruct (k <? 0)%Z; [reflexivity | apply nth_error_map].
Qed.

Lemma skipn_nth_error {A : Type} (l : list A) : forall k x,
  nth_error l k = Some x -> skipn k l = x :: skipn (S k) l.
Proof.
  induction l as [|y l IH]; intros [|k] x Hx; try discriminate.
  - injection Hx as ->. reflexivity.
  - cbn [skipn]. now apply IH.
Qed.

(** The piece of round [k], with the fragments that are left from [k]
    on. *)
Lemma pieces_skipn (lits : list string) (k : nat) v vs :
  EchoTag.pieces (skipn k lits) (v :: vs)
  = (nth k lits "undefined" ++ ToString v)
      :: EchoTag.pieces (skipn (S k) lits) vs.
Proof.
  destruct (nth_error lits k) as [l|] eqn:Hk.
  - rewrite (skipn_nth_error lits k l Hk), pieces_cons.
    now rewrite (nth_error_nth lits k "undefined" Hk).
  - apply nth_error_None in Hk.
    rewrite !skipn_all2 by lia. rewrite pieces_no_literal.
    now rewrite nth_overflow by lia.
Qed.

(** One round on a primitive: the text is appended, or the Symbol
    refused; the state is not touched. *)
Lemma full_step_prim lits ps r k p (st : store) :
  nth_error ps k = Some p ->
  Full.loop_step (Full.Frame lits (map Full.of_prim ps) r k) st
  = (st, match p with
         | Full.Text v =>
             Full.Returns (r ++ nth k lits "undefined" ++ ToString v)
         | Full.Symbol _ => Full.Throws Full.TypeError
         end).
Proof.
  intro Hk. unfold Full.loop_step. cbn [Full.literals Full.substitutions
    Full.result Full.i].
  rewrite (Get_of_nat (map _ ps)), nth_error_map, Hk.
  cbn [option_map Full.of_slot].
  unfold Full.add_assign, Full.bind, Full.ToPrimitive, Full.of_prim.
  cbn [Full.ret Full.ToStringPrim].
  rewrite text_of_literal.
  destruct p as [v|d]; cbn; [now rewrite append_assoc | reflexivity].
Qed.

(** The loop on primitives, from round [k]: it ends on a [TypeError]
    when a Symbol is still to come, and otherwise with every piece
    appended; the state is as it was. *)
Lemma full_for_loop_prims lits ps : forall n r k (st : store),
  length ps - k = n ->
  Full.for_loop (Full.Frame lits (map Full.of_prim ps) r k) st
  = (st, match Full.texts (skipn k ps) with
         | Some vs =>
             Full.Returns
               (Full.Frame lits (map Full.of_prim ps)
                  (r ++ String.concat "" (EchoTag.pieces (skipn k lits) vs))
                  (Nat.max k (length ps)))
         | None => Full.Throws Full.TypeError
         end).
Proof.
  induction n as [|n IH]; intros r k st Hn;
    rewrite full_for_loop_unfold; unfold Full.loop_test;
    cbn [Full.i Full.substitutions]; rewrite length_map.
  - destruct (Nat.ltb_spec k (length ps)); [lia |].
    rewrite skipn_all2 by lia. cbn [Full.texts].
    rewrite pieces_nil. cbn [String.concat].
    now rewrite append_empty_r, Nat.max_l by lia.
  - destruct (Nat.ltb_spec k (length ps)) as [Hlt|]; [| lia].
    destruct (nth_error ps k) as [p|] eqn:Hk;
      [| apply nth_error_None in Hk; lia].
    rewrite (full_step_prim lits ps r k p st Hk).
    rewrite (skipn_nth_error ps k p Hk).
    destruct p as [v|d]; [| reflexivity].
    unfold Full.next. cbn [Full.literals Full.substitutions Full.i].
    rewrite IH by lia. cbn [Full.texts].
    destruct (Full.texts (skipn (S k) ps)) as [vs|]; [| reflexivity].
    cbn [option_map]. rewrite pieces_skipn, concat_cons.
    rewrite !append_assoc.
    now rewrite (Nat.max_r k), (Nat.max_r (S k)) by lia.
Qed.

(** The whole body on primitives. *)
Lemma full_run_prims lits ps (st : store) :
  Full.run lits (map Full.of_prim ps) st
  = (st, match Full.texts ps with
         | Some vs =>
             Full.Returns
               (Full.Frame lits (map Full.of_prim ps)
                  (EchoTag.echoTag lits vs) (length ps))
         | None => Full.Throws Full.TypeError
         end).
Proof.
  unfold Full.run, Full.bind.
  rewrite (full_for_loop_prims lits ps (length ps)) by lia.
  cbn [skipn]. destruct (Full.texts ps) as [vs|]; [| reflexivity].
  cbn [Full.literals Full.substitutions Full.result Full.i].
  unfold Full.add_assign, Full.bind, Full.ToPrimitive.
  cbn [Full.ret Full.ToStringPrim].
  now rewrite text_of_last_literal, echoTag_spec.
Qed.

Lemma full_echoTag_prims lits ps (st : store) :
  Full.echoTag lits (map Full.of_prim ps) st
  = (st, match Full.texts ps with
         | Some vs => Full.Returns (EchoTag.echoTag lits vs)
         | None => Full.Throws Full.TypeError
         end).
Proof.
  unfold Full.echoTag, Full.bind. rewrite full_run_prims.
  now destruct (Full.texts ps).
Qed.

Lemma texts_of_values (vs : list value) :
  Full.texts (map Full.Text vs) = Some vs.
Proof.
  induction vs as [|v vs IH]; [reflexivity |].
  cbn [map Full.texts]. now rewrite IH.
Qed.

Lemma of_value_of_prim (vs : list value) :
  map (@Full.of_value store) vs = map Full.of_prim (map Full.Text vs).
Proof. now rewrite map_map. Qed.

End FullLoop.

Section FullTemplates.

Import JS.

Variable store : Type.

Lemma full_untagged_prims (sp : list (Full.prim * string)) :
  forall acc (st : store),
  Full.untagged acc (map Full.of_span sp) st
  = (st, match Full.text_spans sp with
         | Some vsp =>
             Full.Returns
               (acc ++ String.concat ""
                         (map (fun q => ToString (fst q) ++ snd q) vsp))
         | None => Full.Throws Full.TypeError
         end).
Proof.
  unfold Full.untagged.
  induction sp as [|[[v|d] s] sp IH]; intros acc st.
  - cbn. now rewrite append_empty_r.
  - cbn [map Full.of_span fst snd Full.untagged_spans Full.text_spans].
    unfold Full.bind, Full.ToPrimitive, Full.of_prim.
    cbn [Full.ret Full.ToStringPrim]. rewrite IH.
    destruct (Full.text_spans sp) as [vsp|]; [| reflexivity].
    cbn [option_map map fst snd]. rewrite concat_cons.
    now rewrite !append_assoc.
  - reflexivity.
Qed.

Lemma texts_text_spans (sp : list (Full.prim * string)) :
  Full.texts (map fst sp) = option_map (map fst) (Full.text_spans sp).
Proof.
  induction sp as [|[[v|d] s] sp IH]; try reflexivity.
  cbn [map fst Full.texts Full.text_spans]. rewrite IH.
  now destruct (Full.text_spans sp).
Qed.

Lemma text_spans_snd (sp : list (Full.prim * string)) : forall vsp,
  Full.text_spans sp = Some vsp -> map snd vsp = map snd sp.
Proof.
  induction sp as [|[[v|d] s] sp IH]; intros vsp Hsp;
    cbn [Full.text_spans] in Hsp; try discriminate.
  - now injection Hsp as <-.
  - destruct (Full.text_spans sp) as [rest|]; [| discriminate].
    injection Hsp as <-. cbn [map snd]. f_equal. now apply IH.
Qed.

Lemma full_tagged_prims (h : string) (sp : list (Full.prim * string))
    (st : store) :
  Full.tagged h (map Full.of_span sp) st
  = (st, match Full.text_spans sp with
         | Some vsp =>
             Full.Returns
               (h ++ String.concat ""
                       (map (fun q => ToString (fst q) ++ snd q) vsp))
         | None => Full.Throws Full.TypeError
         end).
Proof.
  unfold Full.tagged.
  replace (map snd (map (@Full.of_span store) sp)) with (map snd sp)
    by (now rewrite map_map).
  replace (map fst (map (@Full.of_span store) sp))
    with (map (@Full.of_prim store) (map fst sp))
    by (now rewrite !map_map).
  rewrite full_echoTag_prims, texts_text_spans.
  destruct (Full.text_spans sp) as [vsp|] eqn:Hsp; [| reflexivity].
  cbn [option_map]. rewrite <- (text_spans_snd sp vsp Hsp).
  f_equal. f_equal.
  apply (proj2 (echoTag_echoes {| Template.head := h; Template.spans := vsp |})).
Qed.

End FullTemplates.

(** ** Errors, state and the kind of a substitution *)

Section FullResults.

Import JS.

(** C4, as the code has it.  On fragments that are strings and
    substitutions that are primitive values with a text (undefined, null,
    booleans, numbers, strings), whatever the two lengths, [echoTag]
    returns a string and throws nothing, in any state and without
    changing it: the loop stops at [i = substitutions.length], one round
    per substitution; a read of [literals[k]] out of range contributes
    the text ["undefined"] (so with no fragment at all every piece starts
    with it); and what is read at [literals[literals.length - 1]] comes
    last.  The string is the one the loop without state computes, which
    is its body run [substitutions.length] times. *)
Theorem echoTag_returns_on_texts (store : Type) (lits : list string)
    (substs : list value) (st : store) :
  Full.run lits (map Full.of_value substs) st
  = (st, Full.Returns
           (Full.Frame lits (map Full.of_value substs)
              (String.concat ""
                 (map (fun k => nth k lits "undefined"
                                ++ ToString (nth k substs Undefined))
                    (seq 0 (length substs)))
               ++ last lits "undefined")
              (length substs))) /\
  Full.echoTag lits (map Full.of_value substs) st
  = (st, Full.Returns
           (String.concat ""
              (map (fun k => nth k lits "undefined"
                             ++ ToString (nth k substs Undefined))
                 (seq 0 (length substs)))
            ++ last lits "undefined")) /\
  Full.echoTag [] (map Full.of_value substs) st
  = (st, Full.Returns
           (String.concat ""
              (map (fun v => "undefined" ++ ToString v) substs)
            ++ "undefined")) /\
  Full.echoTag lits (map Full.of_value substs) st
  = (st, Full.Returns (EchoTag.echoTag lits substs)) /\
  EchoTag.for_loop (EchoTag.Frame lits substs "" 0)
  = Nat.iter (length substs) EchoTag.loop_body
      (EchoTag.Frame lits substs "" 0).
Proof.
  rewrite !of_value_of_prim.
  rewrite full_run_prims, !full_echoTag_prims, texts_of_values.
  rewrite length_map, !echoTag_spec, pieces_no_literals.
  repeat split. apply for_loop_iter. simpl. lia.
Qed.

(** C4, as stated, does not hold: a substitution that is a Symbol makes
    [result += substitutions[i]] throw a [TypeError], and one that is an
    object whose [toString] throws makes the call throw what it throws. *)
Lemma echoTag_symbol_throws :
  Full.echoTag ["a"; "b"] [@Full.of_prim unit (Full.Symbol "s")] tt
  = (tt, Full.Throws Full.TypeError) /\
  Full.echoTag ["a"; "b"] [Full.thrower] tt
  = (tt, Full.Throws (Full.Raised (String "boom"))).
Proof.
  split; reflexivity.
Qed.

(** C8, as the code has it.  On substitutions that are primitives,
    [echoTag] is pure and deterministic: a call leaves the state as it
    found it, ends the same way in every state (with the same string, or
    with the same [TypeError] when a substitution is a Symbol), and when
    it returns the two arrays are as they were passed. *)
Theorem echoTag_pure_on_primitives (store : Type) (lits : list string)
    (ps : list Full.prim) (st st' : store) :
  fst (Full.echoTag lits (map Full.of_prim ps) st) = st /\
  snd (Full.echoTag lits (map Full.of_prim ps) st)
  = snd (Full.echoTag lits (map Full.of_prim ps) st') /\
  match snd (Full.run lits (map Full.of_prim ps) st) with
  | Full.Returns f =>
      Full.literals f = lits /\
      Full.substitutions f = map Full.of_prim ps
  | Full.Throws e => e = Full.TypeError
  end.
Proof.
  rewrite !full_echoTag_prims, full_run_prims. cbn [fst snd].
  split; [reflexivity | split; [reflexivity |]].
  destruct (Full.texts ps); [split |]; reflexivity.
Qed.

(** C8, as stated, does not hold: with the object [counter] as the
    substitution, two calls on the same fragments and the same object
    return different strings, and each changes the variable [n] outside
    the function. *)
Lemma echoTag_counter_differs :
  Full.echoTag ["n="; ""] [Full.counter] 0 = (1, Full.Returns "n=0") /\
  Full.echoTag ["n="; ""] [Full.counter] 1 = (2, Full.Returns "n=1").
Proof.
  split; reflexivity.
Qed.

(** X1. A template whose substitutions are primitives evaluates the same
    way tagged with [echoTag] and without a tag: to the same string, or
    to a [TypeError] in both when a substitution is a Symbol, in any
    state and without changing it.  An object can tell the two apart:
    [+=] asks for [valueOf] first, the template without a tag for
    [toString]. *)
Theorem echoTag_echoes_primitives (store : Type) (h : string)
    (sp : list (Full.prim * string)) (st : store) :
  Full.tagged h (map Full.of_span sp) st
  = Full.untagged h (map Full.of_span sp) st /\
  fst (Full.tagged h (map Full.of_span sp) st) = st /\
  Full.tagged "" [(Full.one, "")] tt = (tt, Full.Returns "1") /\
  Full.untagged "" [(Full.one, "")] tt = (tt, Full.Returns "one").
Proof.
  rewrite full_tagged_prims, full_untagged_prims.
  repeat split.
Qed.

End FullResults.
